(** * Filters, inversion and exception routing of aiogram

    A shallow embedding of [aiogram/filters/base.py] ([Filter],
    [_InvertFilter], [invert_f]) together with the collaborators the
    filters are used with: the [FilterObject] adapter, the two exception
    filters, handler entries and the dispatch engine.

    Coroutines are run to completion in program order, so [await c] is the
    sequencing of an effectful computation: a state-and-exception monad
    over a world [W] that stands for everything a callable can observe or
    change. *)

From stdpp Require Import gmap strings list fin_maps pretty.

Set Warnings "-register-all".

(** ** Python values *)

(** The result of [Pattern.search]: the searched string and the span of the
    match. *)
Record re_Match := mk_Match {
  m_string : string;
  m_start : nat;
  m_end : nat
}.

(** The values that filters and handlers exchange: [Union[bool, Dict[str,
    Any]]] for filters, [Any] for handlers. *)
Inductive value :=
| VNone
| VBool (b : bool)
| VInt (n : Z)
| VStr (s : string)
| VDict (d : gmap string value)
| VMatch (m : re_Match).

(** [bool(v)]: the truth value testing of the language. *)
Definition truthy (v : value) : bool :=
  match v with
  | VNone => false
  | VBool b => b
  | VInt n => negb (n =? 0)%Z
  | VStr s => negb (String.eqb s "")
  | VDict d => negb (size d =? 0)
  | VMatch _ => true
  end.

(** [isinstance(v, dict)] *)
Definition is_dict (v : value) : bool :=
  match v with VDict _ => true | _ => false end.

(** [isinstance(v, bool)] *)
Definition is_bool (v : value) : bool :=
  match v with VBool _ => true | _ => false end.

(** ** Classes and exceptions *)

(** A class carries its name and its direct bases, hence its whole
    ancestry; hierarchies are acyclic by construction. *)
Inductive cls := PyClass (name : string) (bases : list cls).

Definition cls_name (c : cls) : string := match c with PyClass n _ => n end.
Definition cls_bases (c : cls) : list cls := match c with PyClass _ bs => bs end.

Fixpoint cls_eqb (c1 c2 : cls) {struct c1} : bool :=
  match c1, c2 with
  | PyClass n1 bs1, PyClass n2 bs2 =>
      String.eqb n1 n2 &&
      (fix all2 (l1 l2 : list cls) {struct l1} : bool :=
         match l1, l2 with
         | [], [] => true
         | x :: l1', y :: l2' => cls_eqb x y && all2 l1' l2'
         | _, _ => false
         end) bs1 bs2
  end.

(** [issubclass(c, T)]: [c] is [T] or one of the bases of [c] is a subclass
    of [T]. *)
Fixpoint issubclass (c T : cls) {struct c} : bool :=
  cls_eqb c T ||
  match c with
  | PyClass _ bs =>
      (fix any (l : list cls) : bool :=
         match l with
         | [] => false
         | b :: l' => issubclass b T || any l'
         end) bs
  end.

(** The same relation, inductively: the reflexive and transitive closure of
    "is a direct base of". *)
Inductive subclass_of : cls -> cls -> Prop :=
| subclass_refl c : subclass_of c c
| subclass_base c b T : b ∈ cls_bases c -> subclass_of b T -> subclass_of c T.

(** An exception instance: its class and the message it was built with
    ([Exception()] has none, [Exception("KABOOM")] has one). *)
Record Exn := mk_Exn {
  exc_type : cls;
  exc_message : option string
}.

(** [str(e)] *)
Definition Exn_str (e : Exn) : string := default "" (exc_message e).

(** [isinstance(e, T)] *)
Definition isinstance (e : Exn) (T : cls) : bool := issubclass (exc_type e) T.

Definition object : cls := PyClass "object" [].
Definition BaseException : cls := PyClass "BaseException" [object].
Definition Exception : cls := PyClass "Exception" [BaseException].
Definition ValueError : cls := PyClass "ValueError" [Exception].
Definition TypeError : cls := PyClass "TypeError" [Exception].
Definition AttributeError : cls := PyClass "AttributeError" [Exception].
Definition re_error : cls := PyClass "error" [Exception].

(** ** Effects: state and exceptions *)

Inductive outcome (A : Type) :=
| Return (a : A)
| Raise (e : Exn).
Arguments Return {A} a.
Arguments Raise {A} e.

(** A computation started in a world ends with a value or a raised
    exception, and in either case with the world it leaves behind. *)
Definition M (W A : Type) : Type := W -> outcome A * W.

Section Monad.
Context {W : Type}.

#[export] Instance M_ret : MRet (M W) := fun A a w => (Return a, w).

#[export] Instance M_bind : MBind (M W) := fun A B k c w =>
  match c w with
  | (Return a, w') => k a w'
  | (Raise e, w') => (Raise e, w')
  end.

Definition raise {A} (e : Exn) : M W A := fun w => (Raise e, w).

(** [try: c  except Exception as e: h e] *)
Definition try_except {A} (c : M W A) (h : Exn -> M W A) : M W A := fun w =>
  match c w with
  | (Return a, w') => (Return a, w')
  | (Raise e, w') => h e w'
  end.
End Monad.

(** ** Callables, filters and the adapter *)

Abbreviation kwargs := (gmap string value).

Section Filters.
Context {E W : Type}.

(** A function object: its name, the parameter names it declares besides
    the event, whether it declares [**kwargs], whether it is a coroutine
    function, and its body. *)
Record PyFunction := mk_PyFunction {
  fn_name : string;
  fn_params : list string;
  fn_varkw : bool;
  fn_async : bool;
  fn_body : E -> kwargs -> M W value
}.

(** [Filter] is abstract: an instance is either of a subclass that
    overrides [__call__], or an [_InvertFilter].  [CallbackType] is what a
    [FilterObject] wraps: a function or a [Filter] instance. *)
Inductive Filter :=
| SubFilter (type_name : string) (__call__ : PyFunction)
| _InvertFilter (target : FilterObject)
with FilterObject :=
| mk_FilterObject (callback : CallbackType)
with CallbackType :=
| Function (f : PyFunction)
| FilterInstance (f : Filter).

Definition target (f : Filter) : option FilterObject :=
  match f with
  | _InvertFilter t => Some t
  | SubFilter _ _ => None
  end.

Definition callback (fo : FilterObject) : CallbackType :=
  match fo with mk_FilterObject cb => cb end.

(** Modelled from the spec: [FilterObject], of
    [aiogram.dispatcher.event.handler], is not part of the sources.  The
    adapter derives from the wrapped callable, once, which context keys it
    accepts; [_InvertFilter.__call__] declares [*args, **kwargs]. *)
Definition params (cb : CallbackType) : list string :=
  match cb with
  | Function f => fn_params f
  | FilterInstance (SubFilter _ f) => fn_params f
  | FilterInstance (_InvertFilter _) => []
  end.

(** Modelled from the spec: whether the callable wrapped by a
    [FilterObject] (not part of the sources) accepts every context key. *)
Definition varkw (cb : CallbackType) : bool :=
  match cb with
  | Function f => fn_varkw f
  | FilterInstance (SubFilter _ f) => fn_varkw f
  | FilterInstance (_InvertFilter _) => true
  end.

(** Modelled from the spec: whether calling what a [FilterObject] (not part
    of the sources) wraps must be awaited, determined at construction; "if
    the callable is itself a Filter", its [__call__] is a coroutine
    function. *)
Definition awaitable (cb : CallbackType) : bool :=
  match cb with
  | Function f => fn_async f
  | FilterInstance _ => true
  end.

(** Modelled from the spec: [FilterObject._prepare_kwargs] is not part of
    the sources.  The adapter forwards "whichever subset of the accumulated
    context the callable's declared parameters accept". *)
Definition _prepare_kwargs (cb : CallbackType) (kw : kwargs) : kwargs :=
  if varkw cb then kw
  else filter (fun kv => kv.1 ∈ params cb) kw.

(** Modelled from the spec: [FilterObject.call] is not part of the sources.
    In [FilterObject_call] and [CallbackType_call] the wrapped callable is
    invoked with the event and the prepared context, awaited if asynchronous
    and called directly otherwise; with coroutines run to completion both
    give the callable's outcome.

    [Filter_call] is from the sources: the [__call__] of a subclass is its
    own, and [_InvertFilter.__call__] is
    [return not bool(await self.target.call( *args, **kwargs))]. *)
Fixpoint Filter_call (self : Filter) (e : E) (kw : kwargs) : M W value :=
  match self with
  | SubFilter _ f => fn_body f e kw
  | _InvertFilter t =>
      r ← FilterObject_call t e kw;
      mret (VBool (negb (truthy r)))
  end
with FilterObject_call (self : FilterObject) (e : E) (kw : kwargs) : M W value :=
  match self with
  | mk_FilterObject cb => CallbackType_call cb e (_prepare_kwargs cb kw)
  end
with CallbackType_call (cb : CallbackType) (e : E) (kw : kwargs) : M W value :=
  match cb with
  | Function f => fn_body f e kw
  | FilterInstance f => Filter_call f e kw
  end.

(** How many inversions are stacked on top of a filter. *)
Fixpoint Filter_depth (f : Filter) : nat :=
  match f with
  | SubFilter _ _ => 0
  | _InvertFilter (mk_FilterObject (Function _)) => 1
  | _InvertFilter (mk_FilterObject (FilterInstance g)) => S (Filter_depth g)
  end.

(** [invert_f]: [return _InvertFilter(target=FilterObject(target))] *)
Definition invert_f (tgt : CallbackType) : Filter :=
  _InvertFilter (mk_FilterObject tgt).

(** [Filter.__invert__]: [return invert_f(self)] *)
Definition __invert__ (self : Filter) : Filter :=
  invert_f (FilterInstance self).

(** [Filter.update_handler_flags]: the body is [pass].  The dictionary is
    passed by reference; the function gives back its contents after the
    call, and the returned value [None]. *)
Definition update_handler_flags (self : Filter) (flags : kwargs) : kwargs * value :=
  (flags, VNone).
End Filters.

Arguments PyFunction : clear implicits.
Arguments Filter : clear implicits.
Arguments FilterObject : clear implicits.
Arguments CallbackType : clear implicits.

(** ** Events *)

(** [aiogram.types.Update], as far as the routing looks at it. *)
Record Update := mk_Update { update_id : Z }.

(** [aiogram.types.error_event.ErrorEvent]: the incoming update together
    with the exception raised while handling it. *)
Record ErrorEvent := mk_ErrorEvent {
  update : Update;
  exception : Exn
}.

(** ** Regular expressions *)

(** The part of the language's [re] module that the filters rely on.
    [re.compile] either gives a compiled pattern or raises [re.error];
    [Pattern.search] looks for a match anywhere in the string. *)
Class ReEngine := {
  Pattern : Type;
  re_compile : string -> outcome Pattern;
  Pattern_search : Pattern -> string -> option re_Match
}.

(** An engine for the patterns without metacharacters, which denote
    themselves; this engine turns down the other patterns. *)
Module Literal.
Definition metacharacters : list Ascii.ascii :=
  String.list_ascii_of_string ".^$*+?{}[]\|()".

Definition is_literal (s : string) : bool :=
  forallb (fun c => negb (existsb (Ascii.eqb c) metacharacters))
          (String.list_ascii_of_string s).

(** Position of the leftmost occurrence of [needle] in [hay]. *)
Fixpoint find (needle hay : string) : option nat :=
  if String.prefix needle hay then Some 0
  else match hay with
       | EmptyString => None
       | String _ hay' => S <$> find needle hay'
       end.

Definition compile (s : string) : outcome string :=
  if is_literal s then Return s
  else Raise (mk_Exn re_error (Some "unsupported pattern")).

Definition search (p s : string) : option re_Match :=
  (fun i => mk_Match s i (i + String.length p)) <$> find p s.

Definition engine : ReEngine :=
  {| Pattern := string; re_compile := compile; Pattern_search := search |}.
End Literal.

(** ** Exception filters *)

Section ExceptionFilters.
Context {W : Type}.

(** Modelled from the spec: [ExceptionTypeFilter] is not part of the
    sources.  It "holds one or more exception types" and "returns true iff
    the error event's exception is an instance of (is-a, including
    subclasses of) one of the filter's configured types; otherwise false.
    No context mapping is produced." *)
Record ExceptionTypeFilter := mk_ExceptionTypeFilter {
  exceptions : list cls
}.

(** Modelled from the spec: [ExceptionTypeFilter.__call__] is not part of
    the sources; [true] iff the exception is an instance of one of the
    held types, and never a mapping. *)
Definition ExceptionTypeFilter__call__
    (self : ExceptionTypeFilter) (obj : ErrorEvent) : M W value :=
  mret (VBool (existsb (isinstance (exception obj)) (exceptions self))).

Context {re : ReEngine}.

(** The constructor argument [Union[str, Pattern]], also the type of what
    the [pattern] attribute can hold. *)
Inductive str_or_Pattern :=
| a_str (s : string)
| a_Pattern (p : Pattern).

(** [isinstance(x, re.Pattern)] *)
Definition is_Pattern (x : str_or_Pattern) : bool :=
  match x with a_Pattern _ => true | a_str _ => false end.

(** Modelled from the spec: [ExceptionMessageFilter] is not part of the
    sources.  "At construction, a plain string input is compiled into a
    pattern; a pre-compiled pattern input is stored unchanged." *)
Record ExceptionMessageFilter := mk_ExceptionMessageFilter {
  pattern : str_or_Pattern
}.

(** Modelled from the spec: the constructor of [ExceptionMessageFilter] is
    not part of the sources.  "A string argument is compiled to a pattern";
    "an already-compiled pattern argument is stored as-is"; a malformed
    pattern string fails the construction. *)
Definition ExceptionMessageFilter__init__
    (pattern : str_or_Pattern) : outcome ExceptionMessageFilter :=
  match pattern with
  | a_str s =>
      match re_compile s with
      | Return p => Return (mk_ExceptionMessageFilter (a_Pattern p))
      | Raise e => Raise e
      end
  | a_Pattern p => Return (mk_ExceptionMessageFilter (a_Pattern p))
  end.

(** Modelled from the spec: the "fixed well-known name" of the match in the
    context is not part of the sources; [test_match] reads it. *)
Definition match_key : string := "match_exception".

(** Modelled from the spec: [ExceptionMessageFilter.__call__] is not part of
    the sources.  It "renders the exception to its message string, applies
    the stored pattern's search semantics", and
    returns [false] on no match, on a match "a mapping with one entry
    whose value is the match result".  A string has no [search]
    attribute. *)
Definition ExceptionMessageFilter__call__
    (self : ExceptionMessageFilter) (obj : ErrorEvent) : M W value :=
  match pattern self with
  | a_Pattern p =>
      match Pattern_search p (Exn_str (exception obj)) with
      | None => mret (VBool false)
      | Some result => mret (VDict {[ match_key := VMatch result ]})
      end
  | a_str _ => raise (mk_Exn AttributeError (Some "search"))
  end.

(** Modelled from the spec: both filters, not part of the sources, are
    "concrete Filter implementations"; their [__call__] is a coroutine
    function of the event alone. *)
Definition method (body : ErrorEvent -> M W value) : PyFunction ErrorEvent W :=
  {| fn_name := "__call__"; fn_params := []; fn_varkw := false;
     fn_async := true; fn_body := fun obj _ => body obj |}.

(** Modelled from the spec: [ExceptionTypeFilter] (not part of the sources)
    as an instance of [Filter]. *)
Definition ExceptionTypeFilter_Filter (self : ExceptionTypeFilter)
    : Filter ErrorEvent W :=
  SubFilter "ExceptionTypeFilter" (method (ExceptionTypeFilter__call__ self)).

(** Modelled from the spec: [ExceptionMessageFilter] (not part of the
    sources) as an instance of [Filter]. *)
Definition ExceptionMessageFilter_Filter (self : ExceptionMessageFilter)
    : Filter ErrorEvent W :=
  SubFilter "ExceptionMessageFilter" (method (ExceptionMessageFilter__call__ self)).
End ExceptionFilters.

Arguments ExceptionMessageFilter : clear implicits.
Arguments str_or_Pattern : clear implicits.

(** ** Handler entries and routing *)

Section Routing.
Context {E W : Type}.

(** Modelled from the spec: [HandlerObject] is not part of the sources.  A
    handler entry is "an ordered sequence of FilterObject instances (the
    chain) plus the callback to invoke". *)
Record HandlerObject := mk_HandlerObject {
  handler_callback : PyFunction E W;
  filters : list (FilterObject E W)
}.

(** Modelled from the spec: the merge of the router, which is not part of
    the sources.  "A non-empty mapping: the mapping is merged into the
    accumulated context (keys from this filter override keys of the same
    name already present)". *)
Definition merge (ctx : kwargs) (r : value) : kwargs :=
  match r with
  | VDict d => d ∪ ctx
  | _ => ctx
  end.

(** Modelled from the spec: the chain evaluation of the router is not part
    of the sources.  "Iterate the entry's filter chain in order;
    maintain an accumulating context mapping (starts empty); for each
    filter, call it with the event and current accumulated context; if
    result is falsy, abort this entry; if result is a mapping, merge it
    into the accumulated context and continue; if result is true,
    continue without merging."  [None] is the failed chain. *)
Fixpoint evaluate_chain (chain : list (FilterObject E W)) (e : E)
    (ctx : kwargs) : M W (option kwargs) :=
  match chain with
  | [] => mret (Some ctx)
  | f :: chain' =>
      r ← FilterObject_call f e ctx;
      if truthy r then evaluate_chain chain' e (merge ctx r)
      else mret None
  end.

(** Modelled from the spec: the terminal states of a dispatch attempt of
    the router, which is not part of the sources. *)
Inductive routing :=
| MATCHED (entry : HandlerObject) (ctx : kwargs)
| NO_MATCH.

(** Modelled from the spec: the router is not part of the sources.  "For
    each entry in registration order:
    evaluate_chain(entry): MATCHED(entry, merged_context) or continue;
    exhausting all entries without a match: NO_MATCH". *)
Fixpoint route (entries : list HandlerObject) (e : E) : M W routing :=
  match entries with
  | [] => mret NO_MATCH
  | entry :: entries' =>
      r ← evaluate_chain (filters entry) e ∅;
      match r with
      | Some ctx => mret (MATCHED entry ctx)
      | None => route entries' e
      end
  end.

(** Modelled from the spec: the invocation of a handler is not part of the
    sources.  "Invoke the entry's callback with the event and the
    accumulated context merged as call arguments", through the same calling
    convention as the adapter's. *)
Definition invoke (entry : HandlerObject) (e : E) (ctx : kwargs) : M W value :=
  let cb := Function (handler_callback entry) in
  CallbackType_call cb e (_prepare_kwargs cb ctx).

(** Modelled from the spec: the registration API is not part of the
    sources.  It "accepts zero or more invocables per handler entry;
    normalizes each into a FilterObject"; a new entry comes after the
    registered ones. *)
Definition register (entries : list HandlerObject)
    (fs : list (CallbackType E W)) (cb : PyFunction E W) : list HandlerObject :=
  entries ++ [mk_HandlerObject cb (mk_FilterObject <$> fs)].
End Routing.

Arguments HandlerObject : clear implicits.
Arguments routing : clear implicits.

(** ** The dispatch engine *)

Section Dispatch.
Context {W : Type}.

(** Modelled from the spec: [Dispatcher] is not part of the sources.  It
    holds the normal chain and the "separately registered" error chain. *)
Record Dispatcher := mk_Dispatcher {
  update_handlers : list (HandlerObject Update W);
  error_handlers : list (HandlerObject ErrorEvent W)
}.

(** Modelled from the spec: the dispatcher is not part of the sources.  A
    dispatch gives the result of the handler that claimed the event, or
    signals that "no handler claimed this event". *)
Inductive dispatch_result :=
| Handled (result : value)
| UNHANDLED.

(** Modelled from the spec: the error path of the dispatcher is not part of
    the sources.  On a handler's exception: "construct an
    ErrorEvent(original_event, exception)", "re-enter router evaluation
    against the error-handler chain"; "if a handler matches and returns a
    result, that result becomes the result of the original dispatch
    attempt"; "if no error handler matches, the original exception
    propagates".  What an error handler raises is not routed again. *)
Definition handle_exception (dp : Dispatcher) (u : Update) (exn : Exn)
    : M W dispatch_result :=
  let event := mk_ErrorEvent u exn in
  m ← route (error_handlers dp) event;
  match m with
  | MATCHED entry ctx => r ← invoke entry event ctx; mret (Handled r)
  | NO_MATCH => raise exn
  end.

(** Modelled from the spec: [Dispatcher.feed_update] is not part of the
    sources.  The update is routed through the normal chain; only the
    invocation of the matched handler is a failure boundary, the evaluation
    of the filters is not. *)
Definition feed_update (dp : Dispatcher) (u : Update) : M W dispatch_result :=
  m ← route (update_handlers dp) u;
  match m with
  | MATCHED entry ctx =>
      try_except (r ← invoke entry u ctx; mret (Handled r))
                 (handle_exception dp u)
  | NO_MATCH => mret UNHANDLED
  end.

(** Modelled from the spec: the dispatcher is not part of the sources;
    [Dispatcher()] has no entry yet. *)
Definition Dispatcher_new : Dispatcher := mk_Dispatcher [] [].

(** Modelled from the spec: the dispatcher is not part of the sources.  The
    decorator [dp.update], applied to the filters and then to the
    callback, registers an entry of the normal chain. *)
Definition register_update (dp : Dispatcher)
    (fs : list (CallbackType Update W)) (cb : PyFunction Update W) : Dispatcher :=
  mk_Dispatcher (register (update_handlers dp) fs cb) (error_handlers dp).

(** Modelled from the spec: the dispatcher is not part of the sources.  The
    decorator [dp.errors] registers an entry of the error chain. *)
Definition register_errors (dp : Dispatcher)
    (fs : list (CallbackType ErrorEvent W)) (cb : PyFunction ErrorEvent W) : Dispatcher :=
  mk_Dispatcher (update_handlers dp) (register (error_handlers dp) fs cb).
End Dispatch.

Arguments Dispatcher : clear implicits.

(** ** Rendering *)

(** [s * n]: [n] copies of [s] in a row. *)
Definition str_mul (s : string) (n : nat) : string :=
  Nat.iter n (String.append s) "".

Section Rendering.
Context {E W : Type}.

(** The built-in [repr] on values and the rendering of a function object,
    which shows its address, belong to the language. *)
Variable repr : value -> string.
Variable function_str : PyFunction E W -> string.

(** [type(self).__name__] *)
Definition type_name (self : Filter E W) : string :=
  match self with
  | SubFilter n _ => n
  | _InvertFilter _ => "_InvertFilter"
  end.

(** [Filter._signature_to_string]: the positional arguments rendered with
    [repr], then the keyword arguments, in the order of the call, as
    [k=repr(v)]; all joined with [", "] between the parentheses that follow
    the name of the class. *)
Definition _signature_to_string (self : Filter E W)
    (args : list value) (kw : list (string * value)) : string :=
  let items :=
    (repr <$> args) ++ ((fun kv => kv.1 +:+ "=" +:+ repr kv.2) <$> kw) in
  type_name self +:+ "(" +:+ String.concat ", " items +:+ ")".

(** [Filter.__str__], [return self._signature_to_string()], which a subclass
    inherits, and [_InvertFilter.__str__],
    [return f"~{self.target.callback}"], where the callback is rendered by
    its own [__str__]. *)
Fixpoint Filter__str__ (self : Filter E W) : string :=
  match self with
  | SubFilter _ _ => _signature_to_string self [] []
  | _InvertFilter t => "~" +:+ FilterObject_callback__str__ t
  end
with FilterObject_callback__str__ (t : FilterObject E W) : string :=
  match t with
  | mk_FilterObject cb => CallbackType__str__ cb
  end
with CallbackType__str__ (cb : CallbackType E W) : string :=
  match cb with
  | Function f => function_str f
  | FilterInstance f => Filter__str__ f
  end.
End Rendering.

(** ** Measures *)

(** The number of classes in the ancestry of a class, itself included and
    shared ancestors counted as often as they are reached. *)
Fixpoint cls_size (c : cls) : nat :=
  match c with
  | PyClass _ bs =>
      S ((fix sum (l : list cls) : nat :=
            match l with
            | [] => 0
            | b :: l' => cls_size b + sum l'
            end) bs)
  end.

(** ** The objects of the test-suite *)

Module Tests.
(** [class MyException(Exception)] and
    [class MyAnotherException(MyException)] *)
Definition MyException : cls := PyClass "MyException" [Exception].
Definition MyAnotherException : cls := PyClass "MyAnotherException" [MyException].

Section Handlers.
Context {W : Type}.

(** [async def update_handler(update): raise ValueError("KABOOM")] *)
Definition update_handler : PyFunction Update W :=
  {| fn_name := "update_handler"; fn_params := []; fn_varkw := false;
     fn_async := true;
     fn_body := fun _ _ => raise (mk_Exn ValueError (Some "KABOOM")) |}.

(** [async def handler0(event): return "Handled"] *)
Definition handler0 : PyFunction ErrorEvent W :=
  {| fn_name := "handler0"; fn_params := []; fn_varkw := false;
     fn_async := true;
     fn_body := fun _ _ => mret (VStr "Handled") |}.

(** A function that returns the same value for every event. *)
Definition const_filter {E : Type} (v : value) : PyFunction E W :=
  {| fn_name := "const"; fn_params := []; fn_varkw := false;
     fn_async := false;
     fn_body := fun _ _ => mret v |}.
End Handlers.

(** The dispatcher of [test_handle_exception], over the engine for literal
    patterns: one update handler without filters, one error handler gated
    by a message filter. *)
Definition dispatcher {W : Type}
    (emf : ExceptionMessageFilter Literal.engine)
    (on_update : PyFunction Update W) (on_error : PyFunction ErrorEvent W)
    : Dispatcher W :=
  register_errors
    (register_update Dispatcher_new [] on_update)
    [FilterInstance (ExceptionMessageFilter_Filter emf)] on_error.

(** A filter instrumented to record its invocations: the world is the log of
    the recorded names. *)
Definition recording {E : Type} (name : string) (v : value)
    : PyFunction E (list string) :=
  {| fn_name := name; fn_params := []; fn_varkw := false; fn_async := false;
     fn_body := fun _ _ log => (Return v, log ++ [name]) |}.

(** [repr] on [None], the booleans and the integers; the objects of this
    module that are rendered hold no other value. *)
Definition repr_atom (v : value) : string :=
  match v with
  | VNone => "None"
  | VBool true => "True"
  | VBool false => "False"
  | VInt n => pretty n
  | _ => "<object>"
  end.

(** The rendering of a function object, at a fixed address. *)
Definition function_at {E W : Type} (f : PyFunction E W) : string :=
  "<function " +:+ fn_name f +:+ " at 0x7f3a5c0d1e50>".

(** A filter class without attributes that lets every event pass. *)
Definition Always {E W : Type} : Filter E W :=
  SubFilter "Always" (const_filter (VBool true)).
End Tests.

(** * Properties *)

(** ** Sequencing *)

Section MonadFacts.
Context {W A B : Type}.
Implicit Types (c : M W A) (k : A -> M W B).

Lemma bind_Return c k w a w' :
  c w = (Return a, w') -> (c ≫= k) w = k a w'.
Proof. intros Hc. unfold mbind, M_bind. by rewrite Hc. Qed.

Lemma bind_Raise c k w x w' :
  c w = (Raise x, w') -> (c ≫= k) w = (Raise x, w').
Proof. intros Hc. unfold mbind, M_bind. by rewrite Hc. Qed.

Lemma bind_inv_Return c k w b w' :
  (c ≫= k) w = (Return b, w') ->
  exists a w1, c w = (Return a, w1) /\ k a w1 = (Return b, w').
Proof.
  unfold mbind, M_bind. destruct (c w) as [[a|x] w1]; intros H.
  - by exists a, w1.
  - discriminate.
Qed.

Lemma try_except_Raise (c : M W A) (h : Exn -> M W A) w x w1 :
  c w = (Raise x, w1) -> try_except c h w = h x w1.
Proof. intros Hc. unfold try_except. by rewrite Hc. Qed.

Lemma try_except_Return (c : M W A) (h : Exn -> M W A) w a w1 :
  c w = (Return a, w1) -> try_except c h w = (Return a, w1).
Proof. intros Hc. unfold try_except. by rewrite Hc. Qed.
End MonadFacts.

(** ** Truth values *)

Lemma truthy_VDict_nonempty (d : gmap string value) :
  d ≠ ∅ -> truthy (VDict d) = true.
Proof.
  intros Hd. simpl. destruct (size d) eqn:Hs; [|done].
  by apply map_size_empty_inv in Hs.
Qed.

Lemma truthy_VDict_empty : truthy (VDict ∅) = false.
Proof. reflexivity. Qed.

(** ** Inversion *)

Section InvertFacts.
Context {E W : Type}.
Implicit Types (f : Filter E W) (tgt : CallbackType E W) (e : E) (kw : kwargs) (w : W).

(** The adapter hands an empty context on unchanged. *)
Lemma _prepare_kwargs_empty tgt : _prepare_kwargs tgt ∅ = ∅.
Proof.
  unfold _prepare_kwargs. destruct (varkw tgt); [done|].
  apply map_filter_empty.
Qed.

(** What [_InvertFilter.__call__] does with the outcome of its target. *)
Lemma _InvertFilter_call_unfold (t : FilterObject E W) e kw w :
  Filter_call (_InvertFilter t) e kw w =
  match FilterObject_call t e kw w with
  | (Return r, w') => (Return (VBool (negb (truthy r))), w')
  | (Raise x, w') => (Raise x, w')
  end.
Proof.
  simpl. unfold mbind, M_bind.
  by destruct (FilterObject_call t e kw w) as [[r|x] w'].
Qed.

(** Where the adapter around the target returns, the inverted filter
    returns the negated truth value in the same world. *)
Lemma invert_f_call_Return tgt e kw w r w' :
  FilterObject_call (mk_FilterObject tgt) e kw w = (Return r, w') ->
  Filter_call (invert_f tgt) e kw w = (Return (VBool (negb (truthy r))), w').
Proof.
  intros Hcall. unfold invert_f.
  rewrite _InvertFilter_call_unfold. by rewrite Hcall.
Qed.

(** C1: wherever a filter [f] evaluated on an event returns, a value [r]
    leaving the world [w'], the inverted filter [~f] evaluated on that
    event returns [not bool(r)] and leaves the same world; and so does
    [invert_f] of any target, a function or a filter, for any context,
    with respect to what the target returns when it is called through its
    adapter. *)
Theorem invert_negates_truthiness :
  (forall f e w r w',
     Filter_call f e ∅ w = (Return r, w') ->
     Filter_call (__invert__ f) e ∅ w = (Return (VBool (negb (truthy r))), w')) /\
  (forall tgt e kw w r w',
     FilterObject_call (mk_FilterObject tgt) e kw w = (Return r, w') ->
     Filter_call (invert_f tgt) e kw w = (Return (VBool (negb (truthy r))), w')).
Proof.
  split.
  - intros f e w r w' Hcall. apply invert_f_call_Return. simpl.
    by rewrite _prepare_kwargs_empty.
  - apply invert_f_call_Return.
Qed.

(** C2: evaluating an inverted filter either returns a plain boolean, never
    a mapping, or raises what its target raised; a target that returns a
    non-empty mapping makes it return [False], the mapping being
    dropped. *)
Theorem invert_returns_plain_bool tgt e kw w :
  match Filter_call (invert_f tgt) e kw w with
  | (Return v, _) => is_bool v = true /\ is_dict v = false
  | (Raise x, w') =>
      FilterObject_call (mk_FilterObject tgt) e kw w = (Raise x, w')
  end /\
  forall d w',
    d ≠ ∅ ->
    FilterObject_call (mk_FilterObject tgt) e kw w = (Return (VDict d), w') ->
    Filter_call (invert_f tgt) e kw w = (Return (VBool false), w').
Proof.
  split.
  - unfold invert_f. rewrite _InvertFilter_call_unfold.
    by destruct (FilterObject_call _ e kw w) as [[r|x] w'].
  - intros d w' Hd Hcall.
    rewrite (invert_f_call_Return _ _ _ _ _ _ Hcall).
    by rewrite truthy_VDict_nonempty.
Qed.

(** C3: [~~f] is an inverted filter whose target wraps the inverted filter
    [~f], whose target in turn wraps [f]; it is not [f] itself; and where
    [f] evaluated on an event returns [r], it returns [bool(r)], the
    negation of the negation, on the event alone as well as, with respect
    to the call of [f] through its adapter, for any context. *)
Theorem double_invert_is_evaluated f :
  __invert__ (__invert__ f) =
    _InvertFilter (mk_FilterObject (FilterInstance
      (_InvertFilter (mk_FilterObject (FilterInstance f))))) /\
  __invert__ (__invert__ f) ≠ f /\
  (forall e w r w',
     Filter_call f e ∅ w = (Return r, w') ->
     Filter_call (__invert__ (__invert__ f)) e ∅ w =
       (Return (VBool (negb (negb (truthy r)))), w')) /\
  (forall e kw w r w',
     FilterObject_call (mk_FilterObject (FilterInstance f)) e kw w = (Return r, w') ->
     Filter_call (__invert__ (__invert__ f)) e kw w = (Return (VBool (truthy r)), w')).
Proof.
  assert (Hkw : forall e kw w r w',
    FilterObject_call (mk_FilterObject (FilterInstance f)) e kw w = (Return r, w') ->
    Filter_call (__invert__ (__invert__ f)) e kw w = (Return (VBool (truthy r)), w')).
  { intros e kw w r w' Hcall.
    pose proof (invert_f_call_Return _ _ _ _ _ _ Hcall) as Hinner.
    unfold __invert__ at 1.
    rewrite (invert_f_call_Return _ e kw w (VBool (negb (truthy r))) w').
    - simpl truthy. by rewrite negb_involutive.
    - simpl. by rewrite <- Hinner. }
  split; [reflexivity|]. split; [|split; [|exact Hkw]].
  - intros Heq. apply (f_equal Filter_depth) in Heq. simpl in Heq. lia.
  - intros e w r w' Hcall. rewrite negb_involutive. apply Hkw.
    simpl. by rewrite _prepare_kwargs_empty.
Qed.

(** C4: [invert_f] wraps its target, a function or a filter alike, in a
    [FilterObject]; the inverted filter holds that adapter as its target,
    and the outcome of each of its calls is the outcome of the adapter's
    [call] with the same arguments, negated when it is a value. *)
Theorem invert_f_wraps_and_delegates tgt :
  target (invert_f tgt) = Some (mk_FilterObject tgt) /\
  callback (mk_FilterObject tgt) = tgt /\
  forall e kw w,
    Filter_call (invert_f tgt) e kw w =
    match FilterObject_call (mk_FilterObject tgt) e kw w with
    | (Return r, w') => (Return (VBool (negb (truthy r))), w')
    | (Raise x, w') => (Raise x, w')
    end.
Proof.
  split; [reflexivity|]. split; [reflexivity|].
  intros e kw w. apply _InvertFilter_call_unfold.
Qed.

(** C10: the base [update_handler_flags] leaves the flags as they are (and
    returns [None]), whatever the filter and the flags. *)
Theorem update_handler_flags_noop f (flags : kwargs) :
  update_handler_flags f flags = (flags, VNone).
Proof. reflexivity. Qed.
End InvertFacts.

(** ** The class hierarchy *)

Section ClassFacts.
Implicit Types (c b T : cls) (bs : list cls).

(** Induction over a class with the property available for its bases. *)
Lemma cls_nested_ind (P : cls -> Prop) :
  (forall n bs, Forall P bs -> P (PyClass n bs)) -> forall c, P c.
Proof.
  intros Hstep. fix IH 1. intros [n bs]. apply Hstep.
  induction bs as [|b bs IHbs]; constructor; [apply IH | apply IHbs].
Qed.

Lemma cls_eqb_eq c1 c2 : cls_eqb c1 c2 = true <-> c1 = c2.
Proof.
  revert c2. induction c1 as [n1 bs1 IH] using cls_nested_ind.
  intros [n2 bs2]. simpl. rewrite andb_true_iff, String.eqb_eq.
  split.
  - intros [-> Hbs]. f_equal. revert bs2 Hbs.
    induction IH as [|b bs1 Hb _ IHbs]; intros [|b2 bs2] Hbs; try done.
    apply andb_true_iff in Hbs as [Hhd Htl].
    apply Hb in Hhd as ->. f_equal. by apply IHbs.
  - intros [= -> <-]. split; [done|].
    induction IH as [|b bs1 Hb _ IHbs]; [done|].
    apply andb_true_iff. split; [by apply Hb | done].
Qed.

Lemma cls_eqb_refl c : cls_eqb c c = true.
Proof. by apply cls_eqb_eq. Qed.

Lemma issubclass_unfold c T :
  issubclass c T = cls_eqb c T || existsb (fun b => issubclass b T) (cls_bases c).
Proof.
  by destruct c as [n bs].
Qed.

Lemma cls_size_unfold c :
  cls_size c = S (list_sum (cls_size <$> cls_bases c)).
Proof.
  destruct c as [n bs]. simpl. f_equal.
  induction bs as [|b bs IHbs]; [done|]. simpl. by rewrite IHbs.
Qed.

Lemma cls_size_base c b : b ∈ cls_bases c -> cls_size b < cls_size c.
Proof.
  rewrite (cls_size_unfold c). generalize (cls_bases c). intros bs Hin.
  induction Hin as [b bs|b b' bs _ IH]; csimpl; lia.
Qed.

(** [issubclass] decides the closure of the direct-base relation. *)
Lemma issubclass_subclass_of c T : issubclass c T = true <-> subclass_of c T.
Proof.
  split.
  - induction c as [n bs IH] using cls_nested_ind.
    rewrite issubclass_unfold. intros [Heq|Hex]%orb_true_iff.
    + apply cls_eqb_eq in Heq as ->. constructor.
    + apply existsb_exists in Hex as (b & Hin & Hb).
      apply list_elem_of_In in Hin.
      apply (subclass_base _ b); [done|].
      rewrite Forall_forall in IH. by apply IH.
  - induction 1 as [c|c b T Hin _ IH].
    + rewrite issubclass_unfold, cls_eqb_refl. done.
    + rewrite issubclass_unfold. apply orb_true_iff. right.
      apply existsb_exists. exists b. split; [|done].
      by apply list_elem_of_In.
Qed.

Lemma subclass_of_trans c1 c2 c3 :
  subclass_of c1 c2 -> subclass_of c2 c3 -> subclass_of c1 c3.
Proof.
  induction 1 as [c|c b T Hin _ IH]; [done|].
  intros H3. apply (subclass_base _ b); [done | by apply IH].
Qed.

(** A proper superclass is strictly smaller than its subclass. *)
Lemma subclass_of_size c T :
  subclass_of c T -> c = T \/ cls_size T < cls_size c.
Proof.
  induction 1 as [c|c b T Hin _ IH]; [by left|]. right.
  apply cls_size_base in Hin. destruct IH as [->|Hlt]; lia.
Qed.

Lemma subclass_of_antisym c T :
  subclass_of c T -> subclass_of T c -> c = T.
Proof.
  intros H1 H2. apply subclass_of_size in H1, H2.
  destruct H1 as [?|?], H2 as [?|?]; congruence || lia.
Qed.

(** An instance of a proper superclass of [T] is not an instance of [T]. *)
Lemma issubclass_superclass c T :
  c ≠ T -> subclass_of T c -> issubclass c T = false.
Proof.
  intros Hne Hsub. apply not_true_is_false. intros Hc.
  apply issubclass_subclass_of in Hc. apply Hne.
  by apply subclass_of_antisym.
Qed.

Lemma existsb_isinstance e (Ts : list cls) :
  existsb (isinstance e) Ts = true <->
  exists T, T ∈ Ts /\ subclass_of (exc_type e) T.
Proof.
  rewrite existsb_exists. unfold isinstance. split.
  - intros (T & Hin & HT). exists T. rewrite list_elem_of_In.
    by rewrite <- issubclass_subclass_of.
  - intros (T & Hin & HT). exists T. rewrite <- list_elem_of_In.
    by rewrite issubclass_subclass_of.
Qed.
End ClassFacts.

(** ** Exception filters *)

Section ExceptionFilterFacts.
Context {W : Type}.
Implicit Types (u : Update) (e : Exn) (w : W) (kw : kwargs).

(** C7: on an error event whose exception is [e], the filter for the
    types [Ts] returns a plain boolean and leaves the world alone; the
    boolean is [True] exactly if the class of [e] is a subclass, in the
    closure of the direct-base relation, of some type of [Ts].  So a
    declared type itself matches, and an exception none of whose
    classes is declared, such as one of a proper superclass of every
    declared type, does not. *)
Theorem ExceptionTypeFilter_matches_instances (Ts : list cls) u e kw w :
  exists b,
    Filter_call (ExceptionTypeFilter_Filter (mk_ExceptionTypeFilter Ts))
                (mk_ErrorEvent u e) kw w = (Return (VBool b), w) /\
    (b = true <-> exists T, T ∈ Ts /\ subclass_of (exc_type e) T) /\
    (exc_type e ∈ Ts -> b = true) /\
    ((forall T, T ∈ Ts -> exc_type e ≠ T /\ subclass_of T (exc_type e)) ->
     b = false).
Proof.
  exists (existsb (isinstance e) Ts).
  split; [reflexivity|]. split; [apply existsb_isinstance|]. split.
  - intros Hin. apply existsb_isinstance.
    exists (exc_type e). split; [done | constructor].
  - intros Hsuper. apply not_true_is_false. intros Hb.
    apply existsb_isinstance in Hb as (T & Hin & Hsub).
    destruct (Hsuper T Hin) as [Hne Hsup].
    apply Hne. by apply subclass_of_antisym.
Qed.

(** The table of [test_check], for the filter on [MyException]. *)
Example test_check (x : cls) (expected : bool) u w :
  (x, expected) ∈ [(Exception, false); (ValueError, false); (TypeError, false);
                   (Tests.MyException, true); (Tests.MyAnotherException, true)] ->
  Filter_call (ExceptionTypeFilter_Filter (mk_ExceptionTypeFilter [Tests.MyException]))
              (mk_ErrorEvent u (mk_Exn x None)) ∅ w = (Return (VBool expected), w).
Proof.
  rewrite !elem_of_cons, elem_of_nil.
  intros [[= -> ->]|[[= -> ->]|[[= -> ->]|[[= -> ->]|[[= -> ->]|[]]]]]];
    reflexivity.
Qed.

Context {re : ReEngine}.

(** Construction from a string raises what [re.compile] raises. *)
Lemma ExceptionMessageFilter__init___Raise (s : string) (x : Exn) :
  re_compile s = Raise x ->
  ExceptionMessageFilter__init__ (a_str s) = Raise x.
Proof. intros Hc. simpl. by rewrite Hc. Qed.

(** C5: for a string [s] and the pattern [p] that [re.compile(s)] gives,
    the filter built from [s] and the filter built from [p] both hold a
    compiled pattern, namely [p], and they give the same outcome on every
    error event. *)
Theorem ExceptionMessageFilter_converter (s : string) (p : Pattern) :
  re_compile s = Return p ->
  exists f1 f2 : ExceptionMessageFilter re,
    ExceptionMessageFilter__init__ (a_str s) = Return f1 /\
    ExceptionMessageFilter__init__ (a_Pattern p) = Return f2 /\
    is_Pattern (pattern f1) = true /\
    is_Pattern (pattern f2) = true /\
    pattern f1 = a_Pattern p /\
    pattern f2 = a_Pattern p /\
    forall (obj : ErrorEvent) w,
      ExceptionMessageFilter__call__ f1 obj w =
      ExceptionMessageFilter__call__ f2 obj w.
Proof.
  intros Hc.
  exists (mk_ExceptionMessageFilter (a_Pattern p)),
         (mk_ExceptionMessageFilter (a_Pattern p)).
  simpl. by rewrite Hc.
Qed.
End ExceptionFilterFacts.

(** ** The engine for literal patterns *)

Section LiteralFacts.
Import Literal.

Lemma append_String (a : Ascii.ascii) (s t : string) :
  String a s +:+ t = String a (s +:+ t).
Proof. reflexivity. Qed.

Lemma prefix_app (s1 s2 : string) :
  String.prefix s1 s2 = true <-> exists post, s2 = s1 +:+ post.
Proof.
  revert s2. induction s1 as [|a s1 IH]; intros s2; simpl.
  - destruct s2; split; eauto.
  - destruct s2 as [|b s2]; simpl.
    + split; [done | by intros [post ?]].
    + destruct (Ascii.ascii_dec a b) as [->|Hne].
      * rewrite IH. split; intros [post Hpost]; exists post;
          rewrite append_String in *; congruence.
      * split; [done | intros [post ?]; rewrite append_String in *; congruence].
Qed.

Lemma find_unfold (needle hay : string) :
  find needle hay =
  if String.prefix needle hay then Some 0
  else match hay with
       | EmptyString => None
       | String _ hay' => S <$> find needle hay'
       end.
Proof. by destruct hay. Qed.

(** [find] gives the position of an occurrence ... *)
Lemma find_Some (needle hay : string) (i : nat) :
  find needle hay = Some i ->
  exists pre post, hay = pre +:+ needle +:+ post /\ String.length pre = i.
Proof.
  revert i. induction hay as [|a hay IH]; intros i; rewrite find_unfold;
    destruct (String.prefix needle _) eqn:Hp.
  - intros [= <-]. apply prefix_app in Hp as [post Hpost]. by exists "", post.
  - done.
  - intros [= <-]. apply prefix_app in Hp as [post Hpost]. by exists "", post.
  - destruct (find needle hay) as [j|]; [|done].
    intros [= <-]. destruct (IH j eq_refl) as (pre & post & -> & <-).
    exists (String a pre), post. by rewrite append_String.
Qed.

(** ... and finds one whenever there is one. *)
Lemma find_None (needle hay : string) :
  find needle hay = None ->
  forall pre post, hay ≠ pre +:+ needle +:+ post.
Proof.
  induction hay as [|a hay IH]; rewrite find_unfold;
    destruct (String.prefix needle _) eqn:Hp; try done.
  - intros _ [|b pre] post Heq; [|done].
    assert (String.prefix needle "" = true) by (apply prefix_app; eauto).
    congruence.
  - destruct (find needle hay) as [j|]; [done|].
    intros _ [|b pre] post Heq.
    + assert (String.prefix needle (String a hay) = true)
        by (apply prefix_app; eauto).
      congruence.
    + rewrite append_String in Heq. injection Heq as _ Heq. by eapply IH.
Qed.

(** The engine searches: it matches exactly the strings in which the
    pattern occurs somewhere. *)
Lemma search_occurs (p s : string) :
  is_Some (search p s) <-> exists pre post, s = pre +:+ p +:+ post.
Proof.
  unfold search. rewrite fmap_is_Some. split.
  - intros [i (pre & post & Heq & _)%find_Some]. eauto.
  - intros (pre & post & Heq).
    destruct (find p s) eqn:Hf; [done|].
    by apply find_None with (pre := pre) (post := post) in Hf.
Qed.
End LiteralFacts.

(** ** Chains *)

Section ChainFacts.
Context {E W : Type}.
Implicit Types (f : FilterObject E W) (chain : list (FilterObject E W))
               (e : E) (ctx : kwargs) (w : W).

(** A chain whose first filter returns a falsy value fails in the world
    that this filter leaves, whatever comes after it. *)
Lemma evaluate_chain_falsy f chain e ctx w r w1 :
  FilterObject_call f e ctx w = (Return r, w1) ->
  truthy r = false ->
  evaluate_chain (f :: chain) e ctx w = (Return None, w1).
Proof.
  intros Hcall Hr. simpl.
  rewrite (bind_Return _ _ _ _ _ Hcall). by rewrite Hr.
Qed.

(** A filter that raises ends the evaluation of its chain as well. *)
Lemma evaluate_chain_Raise f chain e ctx w x w1 :
  FilterObject_call f e ctx w = (Raise x, w1) ->
  evaluate_chain (f :: chain) e ctx w = (Raise x, w1).
Proof. intros Hcall. simpl. by rewrite (bind_Raise _ _ _ _ _ Hcall). Qed.

(** After a filter that returns a truthy value, the rest of the chain is
    evaluated, in the world that this filter leaves and with its mapping
    merged into the context. *)
Lemma evaluate_chain_truthy f chain e ctx w r w1 :
  FilterObject_call f e ctx w = (Return r, w1) ->
  truthy r = true ->
  evaluate_chain (f :: chain) e ctx w = evaluate_chain chain e (merge ctx r) w1.
Proof.
  intros Hcall Hr. simpl.
  rewrite (bind_Return _ _ _ _ _ Hcall). by rewrite Hr.
Qed.

(** C9: for an entry with the chain [f1; f2], if [f1] returns a falsy
    value, the evaluation of the chain fails with the world exactly as
    [f1] left it: no effect of [f2], such as the record that an
    instrumented [f2] makes of its invocation, takes place. *)
Theorem chain_short_circuit (entry : HandlerObject E W) f1 f2 e w r w1 :
  filters entry = [f1; f2] ->
  FilterObject_call f1 e ∅ w = (Return r, w1) ->
  truthy r = false ->
  evaluate_chain (filters entry) e ∅ w = (Return None, w1).
Proof.
  intros -> Hcall Hr. by apply evaluate_chain_falsy with (r := r).
Qed.
End ChainFacts.

(** An instrumented second filter is recorded after a first filter that
    passes, so that its record is a faithful sign of its invocation. *)
Example recording_after_truthy (u : Update) :
  evaluate_chain
    [mk_FilterObject (Function (Tests.const_filter (VBool true)));
     mk_FilterObject (Function (Tests.recording "second" (VBool true)))]
    u ∅ [] = (Return (Some ∅), ["second"]).
Proof. reflexivity. Qed.

(** ** Routing *)

Section RouteFacts.
Context {E W : Type}.
Implicit Types (entry : HandlerObject E W) (entries : list (HandlerObject E W))
               (e : E) (ctx : kwargs) (w : W).

(** The first entry whose chain passes is the match. *)
Lemma route_MATCHED entry entries e w ctx w1 :
  evaluate_chain (filters entry) e ∅ w = (Return (Some ctx), w1) ->
  route (entry :: entries) e w = (Return (MATCHED entry ctx), w1).
Proof. intros Hc. simpl. by rewrite (bind_Return _ _ _ _ _ Hc). Qed.

(** An entry whose chain fails is passed over. *)
Lemma route_next entry entries e w w1 :
  evaluate_chain (filters entry) e ∅ w = (Return None, w1) ->
  route (entry :: entries) e w = route entries e w1.
Proof. intros Hc. simpl. by rewrite (bind_Return _ _ _ _ _ Hc). Qed.

(** An entry without filters matches with the empty context. *)
Lemma route_no_filters entry entries e w :
  filters entry = [] ->
  route (entry :: entries) e w = (Return (MATCHED entry ∅), w).
Proof. intros Hf. apply route_MATCHED. by rewrite Hf. Qed.
End RouteFacts.

(** ** Dispatch *)

Section DispatchFacts.
Context {W : Type}.
Implicit Types (u : Update) (w : W).

(** C6: the filter built from ["KABOOM"] over the engine for literal
    patterns returns a falsy value on an error event whose exception has
    an empty message, and on one whose exception has the message
    ["KABOOM"] a mapping that holds the match, of the whole message, under
    the key ["match_exception"]. *)
Theorem ExceptionMessageFilter_test_match u w :
  exists f : ExceptionMessageFilter Literal.engine,
    ExceptionMessageFilter__init__ (a_str "KABOOM") = Return f /\
    (exists r,
       Filter_call (ExceptionMessageFilter_Filter f)
                   (mk_ErrorEvent u (mk_Exn Exception None)) ∅ w = (Return r, w) /\
       truthy r = false) /\
    (exists d,
       Filter_call (ExceptionMessageFilter_Filter f)
                   (mk_ErrorEvent u (mk_Exn Exception (Some "KABOOM"))) ∅ w =
         (Return (VDict d), w) /\
       d !! "match_exception" = Some (VMatch (mk_Match "KABOOM" 0 6))).
Proof.
  eexists. split; [reflexivity|]. split.
  - exists (VBool false). by split.
  - eexists. split; [reflexivity|]. reflexivity.
Qed.

(** C8: take the dispatcher with one update handler and one error handler
    gated by the filter built from ["KABOOM"], and feed it an update [u].
    If the update handler, called with [u], raises [ValueError("KABOOM")],
    and the error handler, called with the error event that wraps [u] and
    that exception and with what it accepts of the context holding the
    match, returns [v], then feeding [u] returns [v], in the world the
    error handler left: the exception does not come out of the dispatch,
    and the result is the error handler's, whatever it is, ["Handled"]
    included. *)
Theorem dispatch_handles_exception
    (emf : ExceptionMessageFilter Literal.engine)
    (on_update : PyFunction Update W) (on_error : PyFunction ErrorEvent W)
    u w w1 (v : value) w2 :
  let exn := mk_Exn ValueError (Some "KABOOM") in
  let ctx : kwargs := {[ match_key := VMatch (mk_Match "KABOOM" 0 6) ]} in
  ExceptionMessageFilter__init__ (a_str "KABOOM") = Return emf ->
  fn_body on_update u ∅ w = (Raise exn, w1) ->
  fn_body on_error (mk_ErrorEvent u exn)
          (_prepare_kwargs (Function on_error) ctx) w1 = (Return v, w2) ->
  feed_update (Tests.dispatcher emf on_update on_error) u w =
    (Return (Handled v), w2).
Proof.
  intros exn ctx [= <-] Hw1 Hw2.
  assert (Hctx : ctx ∪ ∅ = ctx) by apply (right_id_L ∅ (∪)).
  unfold feed_update, Tests.dispatcher.
  erewrite bind_Return; [|by apply route_no_filters].
  cbv beta iota. rewrite (try_except_Raise _ _ _ exn w1).
  - unfold handle_exception.
    erewrite bind_Return; [|by apply route_MATCHED with (ctx := ctx ∪ ∅)].
    cbv beta iota. rewrite Hctx.
    erewrite bind_Return; [reflexivity | exact Hw2].
  - apply bind_Raise. unfold invoke. simpl.
    rewrite _prepare_kwargs_empty. apply Hw1.
Qed.
End DispatchFacts.

(** ** Stacked inversions *)

Section InvertIterFacts.
Context {E W : Type}.
Implicit Types (f : Filter E W) (tgt : CallbackType E W) (e : E) (kw : kwargs) (w : W).

(** The depth counts the inversions. *)
Lemma Filter_depth_iter f n :
  Filter_depth (Nat.iter n __invert__ f) = n + Filter_depth f.
Proof. induction n as [|n IH]; [done|]. simpl. by rewrite IH. Qed.

(** An inverted filter, being declared with [**kwargs], is handed the whole
    context by the adapter around it. *)
Lemma FilterObject_call__invert__ f e kw w :
  FilterObject_call (mk_FilterObject (FilterInstance (__invert__ f))) e kw w =
  Filter_call (__invert__ f) e kw w.
Proof. reflexivity. Qed.

Lemma invert_iter_unfold tgt n :
  Nat.iter (S n) __invert__ (invert_f tgt) =
  __invert__ (Nat.iter n __invert__ (invert_f tgt)).
Proof. reflexivity. Qed.

Lemma invert_iter_is_inverted tgt n :
  exists t, Nat.iter n __invert__ (invert_f tgt) = _InvertFilter t.
Proof. destruct n; eexists; reflexivity. Qed.

(** The outcome of [n] inversions on top of [invert_f tgt], from the
    outcome of the adapter around [tgt]. *)
Lemma invert_iter_call tgt n e kw w :
  Filter_call (Nat.iter n __invert__ (invert_f tgt)) e kw w =
  match FilterObject_call (mk_FilterObject tgt) e kw w with
  | (Return r, w') =>
      (Return (VBool (if Nat.even n then negb (truthy r) else truthy r)), w')
  | (Raise x, w') => (Raise x, w')
  end.
Proof.
  induction n as [|n IH].
  - apply _InvertFilter_call_unfold.
  - rewrite invert_iter_unfold. unfold __invert__ at 1, invert_f at 1.
    rewrite _InvertFilter_call_unfold.
    destruct (invert_iter_is_inverted tgt n) as [t Ht].
    assert (Hcall : FilterObject_call (mk_FilterObject (FilterInstance
                       (Nat.iter n __invert__ (invert_f tgt)))) e kw w =
                    Filter_call (Nat.iter n __invert__ (invert_f tgt)) e kw w)
      by (by rewrite Ht).
    rewrite Hcall, IH.
    destruct (FilterObject_call (mk_FilterObject tgt) e kw w) as [[r|x] w'];
      [|done].
    rewrite Nat.even_succ, <- Nat.negb_even.
    by destruct (Nat.even n); simpl; rewrite ?negb_involutive.
Qed.

(** X1: an exception raised by the target, called through its adapter,
    comes out of any number of inversions stacked on it, with the world in
    which it was raised: no inversion turns it into a boolean. *)
Theorem invert_iter_propagates_exception tgt n e kw w x w' :
  FilterObject_call (mk_FilterObject tgt) e kw w = (Raise x, w') ->
  Filter_call (Nat.iter n __invert__ (invert_f tgt)) e kw w = (Raise x, w').
Proof. intros Hcall. by rewrite invert_iter_call, Hcall. Qed.

(** X2: where the target, called through its adapter, returns [r], the
    filter made of [S n] inversions returns [not bool(r)] if that number is
    odd and [bool(r)] if it is even, in the world the target left. *)
Theorem invert_iter_parity tgt n e kw w r w' :
  FilterObject_call (mk_FilterObject tgt) e kw w = (Return r, w') ->
  Filter_call (Nat.iter n __invert__ (invert_f tgt)) e kw w =
    (Return (VBool (if Nat.odd (S n) then negb (truthy r) else truthy r)), w').
Proof.
  intros Hcall. rewrite invert_iter_call, Hcall.
  by rewrite Nat.odd_succ.
Qed.

(** X3: two more inversions on top of an inverted filter change nothing of
    its outcome, value or exception, nor of the world it leaves. *)
Theorem invert_twice_more tgt n e kw w :
  Filter_call (Nat.iter (S (S n)) __invert__ (invert_f tgt)) e kw w =
  Filter_call (Nat.iter n __invert__ (invert_f tgt)) e kw w.
Proof. by rewrite !invert_iter_call. Qed.

(** X4: on an event, [~~f] has the outcome of [f] exactly if [f] raises or
    returns a plain boolean: the double inversion loses what else [f]
    returns, and nothing more. *)
Theorem double_invert_same_iff_bool f e w :
  Filter_call (__invert__ (__invert__ f)) e ∅ w = Filter_call f e ∅ w <->
  match Filter_call f e ∅ w with
  | (Return r, _) => is_bool r = true
  | (Raise _, _) => True
  end.
Proof.
  change (__invert__ (__invert__ f))
    with (Nat.iter 1 __invert__ (invert_f (FilterInstance f))).
  rewrite invert_iter_call.
  assert (Hcall : FilterObject_call (mk_FilterObject (FilterInstance f)) e ∅ w =
                  Filter_call f e ∅ w)
    by (simpl; by rewrite _prepare_kwargs_empty).
  rewrite Hcall. destruct (Filter_call f e ∅ w) as [[r|x] w']; [|done].
  simpl. split.
  - by intros [= <-].
  - by destruct r.
Qed.

(** X5: stacks of different numbers of inversions on a filter are different
    filters: no number of inversions is simplified to another. *)
Theorem invert_iter_distinct f n m :
  n ≠ m -> Nat.iter n __invert__ f ≠ Nat.iter m __invert__ f.
Proof.
  intros Hne Heq. apply (f_equal Filter_depth) in Heq.
  rewrite !Filter_depth_iter in Heq. lia.
Qed.
End InvertIterFacts.

(** ** Rendering *)

Lemma String_length_append (s t : string) :
  String.length (s +:+ t) = String.length s + String.length t.
Proof. induction s as [|a s IH]; [done|]. simpl. by rewrite IH. Qed.

Lemma String_append_assoc (s t u : string) :
  (s +:+ t) +:+ u = s +:+ t +:+ u.
Proof.
  induction s as [|a s IH]; [done|]. rewrite !append_String. by rewrite IH.
Qed.

Lemma str_mul_length (s : string) (n : nat) :
  String.length (str_mul s n) = n * String.length s.
Proof.
  induction n as [|n IH]; [done|].
  unfold str_mul in *. simpl. rewrite String_length_append, IH. lia.
Qed.

(** [", ".join] of two non-empty lists in a row puts one separator between
    the two joined parts. *)
Lemma concat_app (sep : string) (l1 l2 : list string) :
  l1 ≠ [] -> l2 ≠ [] ->
  String.concat sep (l1 ++ l2) =
  String.concat sep l1 +:+ sep +:+ String.concat sep l2.
Proof.
  intros H1 H2. induction l1 as [|x l1 IH]; [done|].
  destruct l1 as [|y l1].
  - simpl. by destruct l2.
  - change (String.concat sep ((x :: y :: l1) ++ l2))
      with (x +:+ sep +:+ String.concat sep ((y :: l1) ++ l2)).
    rewrite IH by done.
    change (String.concat sep (x :: y :: l1))
      with (x +:+ sep +:+ String.concat sep (y :: l1)).
    by rewrite !String_append_assoc.
Qed.

Section RenderingFacts.
Context {E W : Type}.
Variable repr : value -> string.
Variable function_str : PyFunction E W -> string.
Implicit Types (f : Filter E W).

Lemma Filter__str____invert__ f :
  Filter__str__ repr function_str (__invert__ f) = "~" +:+ Filter__str__ repr function_str f.
Proof. reflexivity. Qed.


(** X7: stacks of different numbers of inversions on the same filter have
    different renderings: the rendering tells [f], [~f], [~~f] and so on
    apart. *)
Theorem Filter__str___invert_iter_distinct f n m :
  n ≠ m ->
  Filter__str__ repr function_str (Nat.iter n __invert__ f) ≠
  Filter__str__ repr function_str (Nat.iter m __invert__ f).
Proof.
  intros Hne Heq. apply (f_equal String.length) in Heq.
  assert (Hstep : forall k, String.length (Filter__str__ repr function_str (Nat.iter k __invert__ f)) =
                            k + String.length (Filter__str__ repr function_str f)).
  { induction k as [|k IH]; [done|].
    change (Nat.iter (S k) __invert__ f) with (__invert__ (Nat.iter k __invert__ f)).
    rewrite Filter__str____invert__, String_length_append, IH.
    change (String.length "~") with 1. lia. }
  rewrite !Hstep in Heq. lia.
Qed.

(** X8: [_signature_to_string] without arguments gives the name of the class
    and an empty pair of parentheses; with arguments of one kind only it
    joins their renderings; with positional and keyword arguments it lists
    the positional ones first, then the keyword ones, with one separator
    between the two groups. *)
Theorem _signature_to_string_groups f (args : list value) (kw : list (string * value)) :
  let keyword := fun kv : string * value => kv.1 +:+ "=" +:+ repr kv.2 in
  _signature_to_string repr f [] [] = type_name f +:+ "()" /\
  _signature_to_string repr f args [] =
    type_name f +:+ "(" +:+ String.concat ", " (repr <$> args) +:+ ")" /\
  _signature_to_string repr f [] kw =
    type_name f +:+ "(" +:+ String.concat ", " (keyword <$> kw) +:+ ")" /\
  (args ≠ [] -> kw ≠ [] ->
   _signature_to_string repr f args kw =
   type_name f +:+ "(" +:+
     String.concat ", " (repr <$> args) +:+ ", " +:+
     String.concat ", " (keyword <$> kw) +:+ ")").
Proof.
  intros keyword. split; [reflexivity|]. split; [|split; [reflexivity|]].
  - unfold _signature_to_string. by rewrite fmap_nil, app_nil_r.
  - intros Ha Hk. unfold _signature_to_string.
    rewrite concat_app.
    + by rewrite !String_append_assoc.
    + by destruct args.
    + by destruct kw.
Qed.
End RenderingFacts.

(** ** Worked instances *)

(** Inverting a filter that returns a non-empty mapping gives [False]. *)
Lemma invert_negates_truthiness_witness :
  let f : Filter Update unit :=
    SubFilter "Ctx" (Tests.const_filter (VDict {[ "key" := VInt 1 ]})) in
  Filter_call f (mk_Update 0) ∅ tt = (Return (VDict {[ "key" := VInt 1 ]}), tt) /\
  Filter_call (__invert__ f) (mk_Update 0) ∅ tt = (Return (VBool false), tt).
Proof.
  intros f. split; [reflexivity|].
  exact (proj1 invert_negates_truthiness f (mk_Update 0) tt
           (VDict {[ "key" := VInt 1 ]}) tt eq_refl).
Defined.

(** The mapping that a function returns is dropped by its inversion. *)
Lemma invert_returns_plain_bool_witness :
  let d : kwargs := {[ "key" := VInt 1 ]} in
  let tgt : CallbackType Update unit := Function (Tests.const_filter (VDict d)) in
  d ≠ ∅ /\
  Filter_call (invert_f tgt) (mk_Update 0) ∅ tt = (Return (VBool false), tt).
Proof.
  intros d tgt.
  assert (Hd : d ≠ ∅) by (intros Heq; by apply (f_equal (lookup "key")) in Heq).
  split; [exact Hd|].
  exact (proj2 (invert_returns_plain_bool tgt (mk_Update 0) ∅ tt) d tt Hd eq_refl).
Defined.

(** Inverting twice a filter that returns [None] gives [False], not
    [None]. *)
Lemma double_invert_is_evaluated_witness :
  let f : Filter Update unit := SubFilter "Never" (Tests.const_filter VNone) in
  Filter_call f (mk_Update 0) ∅ tt = (Return VNone, tt) /\
  Filter_call (__invert__ (__invert__ f)) (mk_Update 0) ∅ tt =
    (Return (VBool false), tt).
Proof.
  intros f. split; [reflexivity|].
  exact (proj1 (proj2 (proj2 (double_invert_is_evaluated f)))
           (mk_Update 0) tt VNone tt eq_refl).
Defined.

(** The two parameters of [test_converter]. *)
Lemma ExceptionMessageFilter_converter_witness :
  exists f1 f2 : ExceptionMessageFilter Literal.engine,
    ExceptionMessageFilter__init__ (a_str "value") = Return f1 /\
    ExceptionMessageFilter__init__ (a_Pattern ("value" : @Pattern Literal.engine)) = Return f2 /\
    is_Pattern (pattern f1) = true /\
    is_Pattern (pattern f2) = true.
Proof.
  destruct (ExceptionMessageFilter_converter (W := unit) (re := Literal.engine)
              "value" "value" eq_refl)
    as (f1 & f2 & H1 & H2 & Hp1 & Hp2 & _).
  exists f1, f2. repeat split; assumption.
Defined.

(** An instance of a subclass of the declared type matches. *)
Lemma ExceptionTypeFilter_matches_instances_witness :
  exists b,
    Filter_call (ExceptionTypeFilter_Filter (mk_ExceptionTypeFilter [Tests.MyException]))
                (mk_ErrorEvent (mk_Update 0) (mk_Exn Tests.MyAnotherException None))
                ∅ tt = (Return (VBool b), tt) /\
    b = true.
Proof.
  destruct (ExceptionTypeFilter_matches_instances (W := unit)
              [Tests.MyException] (mk_Update 0)
              (mk_Exn Tests.MyAnotherException None) ∅ tt)
    as (b & Hcall & Hiff & _).
  exists b. split; [exact Hcall|].
  apply Hiff. exists Tests.MyException. split; [apply list_elem_of_here|].
  apply (subclass_base _ Tests.MyException); [apply list_elem_of_here|].
  apply subclass_refl.
Defined.

(** [test_handle_exception] *)
Lemma dispatch_handles_exception_witness :
  let exn := mk_Exn ValueError (Some "KABOOM") in
  let ctx : kwargs := {[ match_key := VMatch (mk_Match "KABOOM" 0 6) ]} in
  let emf := mk_ExceptionMessageFilter (a_Pattern ("KABOOM" : @Pattern Literal.engine)) in
  ExceptionMessageFilter__init__ (a_str "KABOOM") = Return emf /\
  fn_body (Tests.update_handler (W := unit)) (mk_Update 0) ∅ tt = (Raise exn, tt) /\
  fn_body (Tests.handler0 (W := unit)) (mk_ErrorEvent (mk_Update 0) exn)
          (_prepare_kwargs (Function (Tests.handler0 (W := unit))) ctx) tt =
    (Return (VStr "Handled"), tt) /\
  feed_update (Tests.dispatcher emf Tests.update_handler Tests.handler0)
              (mk_Update 0) tt = (Return (Handled (VStr "Handled")), tt).
Proof.
  intros exn ctx emf.
  split; [reflexivity|]. split; [reflexivity|]. split; [reflexivity|].
  exact (dispatch_handles_exception (W := unit) emf
           Tests.update_handler Tests.handler0 (mk_Update 0) tt tt
           (VStr "Handled") tt eq_refl eq_refl eq_refl).
Defined.

(** The first filter is recorded, the second one is not. *)
Lemma chain_short_circuit_witness :
  let f1 : FilterObject Update (list string) :=
    mk_FilterObject (Function (Tests.recording "first" (VBool false))) in
  let f2 : FilterObject Update (list string) :=
    mk_FilterObject (Function (Tests.recording "second" (VBool true))) in
  let entry := mk_HandlerObject Tests.update_handler [f1; f2] in
  FilterObject_call f1 (mk_Update 0) ∅ [] = (Return (VBool false), ["first"]) /\
  evaluate_chain (filters entry) (mk_Update 0) ∅ [] = (Return None, ["first"]).
Proof.
  intros f1 f2 entry. split; [reflexivity|].
  apply (chain_short_circuit entry f1 f2 (mk_Update 0) [] (VBool false) ["first"]);
    reflexivity.
Defined.

(** An exception of a function comes out of three inversions. *)
Lemma invert_iter_propagates_exception_witness :
  let tgt : CallbackType Update unit := Function Tests.update_handler in
  let x := mk_Exn ValueError (Some "KABOOM") in
  FilterObject_call (mk_FilterObject tgt) (mk_Update 0) ∅ tt = (Raise x, tt) /\
  Filter_call (Nat.iter 2 __invert__ (invert_f tgt)) (mk_Update 0) ∅ tt = (Raise x, tt).
Proof.
  intros tgt x. split; [reflexivity|].
  exact (invert_iter_propagates_exception tgt 2 (mk_Update 0) ∅ tt x tt eq_refl).
Defined.

(** Two inversions of a function that returns a non-empty mapping give
    [True]. *)
Lemma invert_iter_parity_witness :
  let r := VDict {[ "key" := VInt 1 ]} in
  let tgt : CallbackType Update unit := Function (Tests.const_filter r) in
  FilterObject_call (mk_FilterObject tgt) (mk_Update 0) ∅ tt = (Return r, tt) /\
  Filter_call (Nat.iter 1 __invert__ (invert_f tgt)) (mk_Update 0) ∅ tt =
    (Return (VBool true), tt).
Proof.
  intros r tgt. split; [reflexivity|].
  exact (invert_iter_parity tgt 1 (mk_Update 0) ∅ tt r tt eq_refl).
Defined.

(** A filter that returns [True] and its double inversion have the same
    outcome. *)
Lemma double_invert_same_iff_bool_witness :
  let f : Filter Update unit := Tests.Always in
  Filter_call (__invert__ (__invert__ f)) (mk_Update 0) ∅ tt =
  Filter_call f (mk_Update 0) ∅ tt.
Proof.
  intros f.
  exact (proj2 (double_invert_same_iff_bool f (mk_Update 0) tt) eq_refl).
Defined.

(** A filter is not its double inversion. *)
Lemma invert_iter_distinct_witness :
  let f : Filter Update unit := Tests.Always in
  0 ≠ 2 /\ f ≠ __invert__ (__invert__ f).
Proof.
  intros f. assert (Hne : 0 ≠ 2) by lia.
  split; [exact Hne|]. exact (invert_iter_distinct f 0 2 Hne).
Defined.

(** [Always()] and [~Always()] *)
Lemma Filter__str___invert_iter_distinct_witness :
  let f : Filter Update unit := Tests.Always in
  0 ≠ 1 /\
  Filter__str__ Tests.repr_atom Tests.function_at f ≠
  Filter__str__ Tests.repr_atom Tests.function_at (__invert__ f).
Proof.
  intros f. assert (Hne : 0 ≠ 1) by lia.
  split; [exact Hne|].
  exact (Filter__str___invert_iter_distinct Tests.repr_atom Tests.function_at f 0 1 Hne).
Defined.

(** [Always(1, None, flag=True)] *)
Lemma _signature_to_string_groups_witness :
  let f : Filter Update unit := Tests.Always in
  let args := [VInt 1; VNone] in
  let kw := [("flag", VBool true)] in
  args ≠ [] /\ kw ≠ [] /\
  _signature_to_string Tests.repr_atom f args kw = "Always(1, None, flag=True)".
Proof.
  intros f args kw.
  assert (Ha : args ≠ []) by discriminate.
  assert (Hk : kw ≠ []) by discriminate.
  split; [exact Ha|]. split; [exact Hk|].
  rewrite (proj2 (proj2 (proj2
    (_signature_to_string_groups Tests.repr_atom f args kw))) Ha Hk).
  reflexivity.
Defined.
